(** * dvc/commands/studio.py: the [dvc studio] login, logout and token commands

    A shallow embedding of [CmdStudioLogin], [CmdStudioLogout] and
    [CmdStudioToken].  Python values are modelled as the code uses them:
    the configuration is a dict of sections, each a dict of string fields;
    optional command-line arguments are [option string]; the commands run in
    a small state-and-exception monad over a world made of the persistent
    configuration store and the trace of observable events (terminal output,
    browser launches, calls to the authorization service). *)

From Stdlib Require Import ZArith Ascii String.
From stdpp Require Import gmap strings list fin_maps.

Local Open Scope string_scope.
Local Open Scope Z_scope.
Local Open Scope list_scope.

(** ** Python values and exceptions *)

Inductive exn : Type :=
| KeyError (key : string)
| ValueError (msg : string)
| OtherError (msg : string).

Inductive result (A : Type) : Type :=
| Ok (a : A)
| Raise (e : exn).
Arguments Ok {A} a.
Arguments Raise {A} e.

(** Truth value of an optional string: [None] and the empty string are
    falsy, every other string is truthy. *)
Definition truthy (x : option string) : bool :=
  match x with
  | None => false
  | Some s => if decide (s = "") then false else true
  end.

(** [not x] *)
Definition py_not (x : option string) : bool := negb (truthy x).

(** [a or b], both operands optional strings. *)
Definition py_or (a b : option string) : option string :=
  if truthy a then a else b.

(** [a or b] where [b] is known to be a string. *)
Definition or_else (a : option string) (b : string) : string :=
  match py_or a (Some b) with
  | Some s => s
  | None => b
  end.

(** The line feed of the messages' [\n]. *)
Definition nl : string := String (ascii_of_nat 10) EmptyString.

(** [s.split(sep)] for a one-character separator: the pieces between
    occurrences of [sep], in order; the empty string gives one empty piece. *)
Fixpoint str_split (sep : ascii) (s : string) : list string :=
  match s with
  | EmptyString => [EmptyString]
  | String c rest =>
      if Ascii.eqb c sep then EmptyString :: str_split sep rest
      else match str_split sep rest with
           | [] => [String c EmptyString]
           | piece :: pieces => String c piece :: pieces
           end
  end.

(** [sep.join(pieces)], the inverse view of [str_split]. *)
Fixpoint str_join (sep : ascii) (pieces : list string) : string :=
  match pieces with
  | [] => EmptyString
  | [p] => p
  | p :: ps => p +:+ String sep (str_join sep ps)
  end.

(** Whether a character occurs in a string. *)
Fixpoint str_contains (c : ascii) (s : string) : bool :=
  match s with
  | EmptyString => false
  | String d rest => Ascii.eqb d c || str_contains c rest
  end.

Definition comma : ascii := ascii_of_nat 44.

(** ** Module constants *)

Definition DEFAULT_SCOPES : string :=
  "live,dvc_experiment,view_url,dql,download_model".

Definition AVAILABLE_SCOPES : list string :=
  ["live"; "dvc_experiment"; "view_url"; "dql"; "download_model"].

(** ** The configuration store *)

(** A configuration is a dict of sections; a section is a dict of string
    fields.  The store keeps one configuration per level ("global", ...). *)
Abbreviation Conf := (gmap string (gmap string string)).
Abbreviation Store := (gmap string (gmap string (gmap string string))).

(** [get_in(conf, [k1, k2])] of funcy: the value at the nested path, [None]
    when either key is missing. *)
Definition get_in (conf : Conf) (path : string * string) : option string :=
  match conf !! path.1 with
  | Some sec => sec !! path.2
  | None => None
  end.

(** [conf[k1][k2] = v]: the inner dict is the one held by [conf], so the
    update is seen through [conf]; a missing section raises [KeyError]. *)
Definition setitem2 (conf : Conf) (k1 k2 v : string) : result Conf :=
  match conf !! k1 with
  | Some sec => Ok (<[k1 := <[k2 := v]> sec]> conf)
  | None => Raise (KeyError k1)
  end.

(** [del conf[k1][k2]]: a missing section or a missing field raises
    [KeyError]. *)
Definition delitem2 (conf : Conf) (k1 k2 : string) : result Conf :=
  match conf !! k1 with
  | None => Raise (KeyError k1)
  | Some sec =>
      match sec !! k2 with
      | None => Raise (KeyError k2)
      | Some _ => Ok (<[k1 := delete k2 sec]> conf)
      end
  end.

(** Modelled from the spec: [Config.load_one], which is not part of the
    command module.  The Scoped Config Store keeps, for each named scope, a
    configuration holding a [studio] namespace; loading a scope yields its
    configuration with the [studio] section in place (empty when nothing
    was stored in it). *)
Definition load_one (st : Store) (level : string) : Conf :=
  let conf := default ∅ (st !! level) in
  <["studio" := default ∅ (conf !! "studio")]> conf.

(** ** Worlds, events and the command monad *)

Inductive event : Type :=
| UiWrite (msg : string)
| UiErrorWrite (msg : string)
| WebbrowserOpen (url : string)
| StartDeviceLogin (client_name base_url token_name : string)
    (scopes : list string)
| CheckTokenAuthorization (uri device_code : string).

Record World : Type := mkWorld {
  store : Store;
  trace : list event
}.

Definition emit (e : event) (w : World) : World :=
  mkWorld (store w) (trace w ++ [e]).

Definition M (A : Type) : Type := World → result A * World.

Definition ret {A} (a : A) : M A := λ w, (Ok a, w).

Definition bind {A B} (m : M A) (k : A → M B) : M B :=
  λ w, match m w with
       | (Ok a, w') => k a w'
       | (Raise e, w') => (Raise e, w')
       end.

Definition lift {A} (r : result A) : M A := λ w, (r, w).

Declare Scope cmd_scope.
Delimit Scope cmd_scope with cmd.
Notation "x <- m ;; k" := (bind m (λ x, k))
  (at level 100, m at next level, right associativity) : cmd_scope.
Notation "m ;;; k" := (bind m (λ _, k))
  (at level 100, right associativity) : cmd_scope.
Local Open Scope cmd_scope.

(** [try: body / except ValueError as e: handler(str(e))] *)
Definition try_except_ValueError {A} (body : M A) (handler : string → M A)
  : M A :=
  λ w, match body w with
       | (Raise (ValueError msg), w') => handler msg w'
       | r => r
       end.

Definition ui_write (msg : string) : M unit :=
  λ w, (Ok (), emit (UiWrite msg) w).

Definition ui_error_write (msg : string) : M unit :=
  λ w, (Ok (), emit (UiErrorWrite msg) w).

(** Modelled from the spec: [Config.read(level)], the read of a scope
    without mutation. *)
Definition config_read (level : string) : M Conf :=
  λ w, (Ok (load_one (store w) level), w).

(** Modelled from the spec: [Config.edit(level)], the transactional edit.
    The body receives the loaded configuration and hands back the mutated
    one; when the [with] block is left normally (also by [return]) the whole
    configuration is committed, when it is left by an exception nothing is
    written.  The store modelled here has no failing medium under it: a
    commit always goes through, so what is proved of the commands is proved
    of runs whose commit succeeds; a commit that fails would leave the
    command as the store's exception, which none of the commands catches. *)
Definition config_edit {A} (level : string) (body : Conf → M (A * Conf))
  : M A :=
  λ w, match body (load_one (store w) level) w with
       | (Ok (a, conf'), w') =>
           (Ok a, mkWorld (<[level := conf']> (store w')) (trace w'))
       | (Raise e, w') => (Raise e, w')
       end.

(** ** Collaborators *)

(** The response of [start_device_login]. *)
Record DeviceLoginResponse : Type := mkResponse {
  verification_uri : string;
  user_code : string;
  device_code : string;
  token_uri : string
}.

(** What the command module imports and calls but does not define: the
    process environment, the two constants naming the environment variable
    and the built-in host, the name generator, the authorization service
    client and the platform browser. *)
Record Env : Type := mkEnv {
  environ : gmap string string;
  DVC_STUDIO_URL : string;
  STUDIO_URL : string;
  gen_random_name : string;
  start_device_login :
    string → string → string → list string → result DeviceLoginResponse;
  check_token_authorization : string → string → result (option string);
  webbrowser_open : string → bool
}.

(** The parsed command line of [dvc studio login] ([self.args]); the three
    options default to [None], the flag to [False]. *)
Record Args : Type := mkArgs {
  name : option string;
  hostname : option string;
  scopes : option string;
  use_device_code : bool
}.

(** ** CmdStudioLogin *)

Definition browser_message (verification_uri : string) : string :=
  "A web browser has been opened at " +:+ nl +:+ verification_uri +:+ "."
  +:+ nl +:+ "Please continue the login in the web browser." +:+ nl
  +:+ "If no web browser is available or if the web browser fails to open,"
  +:+ nl
  +:+ "use device code flow with `dvc studio login --use-device-code`.".

Definition manual_url_message (verification_uri : string) : string :=
  "Please open the following url in your browser." +:+ nl
  +:+ verification_uri.

Definition manual_code_message (user_code : string) : string :=
  "And enter the user code below " +:+ user_code +:+ " to authorize.".

Definition expired_message : string :=
  "failed to authenticate: This 'device_code' has expired.(expired_token)".

Definition success_message (name : string) : string :=
  "Authentication successful. The token will be " +:+ "available as "
  +:+ name +:+ " in Studio profile.".

(** [self.args.name or gen_random_name()] *)
Definition resolve_name (env : Env) (args : Args) : string :=
  or_else (name args) (gen_random_name env).

(** [self.args.hostname or os.environ.get(DVC_STUDIO_URL) or STUDIO_URL] *)
Definition resolve_hostname (env : Env) (args : Args) : string :=
  or_else (py_or (hostname args) (environ env !! DVC_STUDIO_URL env))
    (STUDIO_URL env).

Definition call_start_device_login (env : Env)
    (client_name base_url token_name : string) (scopes : list string)
  : M DeviceLoginResponse :=
  λ w, (start_device_login env client_name base_url token_name scopes,
        emit (StartDeviceLogin client_name base_url token_name scopes) w).

Definition call_check_token_authorization (env : Env)
    (uri device_code : string) : M (option string) :=
  λ w, (check_token_authorization env uri device_code,
        emit (CheckTokenAuthorization uri device_code) w).

Definition call_webbrowser_open (env : Env) (url : string) : M bool :=
  λ w, (Ok (webbrowser_open env url), emit (WebbrowserOpen url) w).

Definition initiate_authorization (env : Env) (args : Args)
    (name hostname : string) : M (string * string) :=
  let scopes := or_else (scopes args) DEFAULT_SCOPES in
  response <- call_start_device_login env "dvc" hostname name
                (str_split comma scopes);;
  let verification_uri := verification_uri response in
  let user_code := user_code response in
  let device_code := device_code response in
  let token_uri := token_uri response in
  opened <- (if negb (use_device_code args) then
               ui_write (browser_message verification_uri);;;
               let url := verification_uri +:+ "?code=" +:+ user_code in
               call_webbrowser_open env url
             else ret false);;
  (if negb opened then
     ui_write (manual_url_message verification_uri);;;
     ui_write (manual_code_message user_code)
   else ret ());;;
  ret (device_code, token_uri).

Definition save_config (hostname token : string) : M unit :=
  config_edit "global" (λ conf,
    conf <- lift (setitem2 conf "studio" "token" token);;
    conf <- lift (setitem2 conf "studio" "url" hostname);;
    ret ((), conf)).

Definition CmdStudioLogin_run (env : Env) (args : Args) : M Z :=
  let name := resolve_name env args in
  let hostname := resolve_hostname env args in
  r <- try_except_ValueError
         (dt <- initiate_authorization env args name hostname;; ret (inr dt))
         (λ e, ui_error_write e;;; ret (inl 1));;
  match r with
  | inl code => ret code
  | inr (device_code, token_uri) =>
      access_token <- call_check_token_authorization env token_uri
                        device_code;;
      match access_token with
      | Some token =>
          if py_not access_token then ui_write expired_message;;; ret 1
          else
            save_config hostname token;;;
            ui_write (success_message name);;;
            ret 0
      | None => ui_write expired_message;;; ret 1
      end
  end.

(** ** CmdStudioLogout *)

(** How a [with] block is left: by falling off its end or by [return]. *)
Inductive flow (A : Type) : Type :=
| Fallthrough
| Return (a : A).
Arguments Fallthrough {A}.
Arguments Return {A} a.

(** The body of the [with self.config.edit("global") as conf] block. *)
Definition logout_body (conf : Conf) : M (flow Z * Conf) :=
  if py_not (get_in conf ("studio", "token")) then
    ui_error_write "Not logged in to Studio.";;;
    ret (Return 1, conf)
  else
    conf <- lift (delitem2 conf "studio" "token");;
    ret (Fallthrough, conf).

Definition CmdStudioLogout_run : M Z :=
  f <- config_edit "global" logout_body;;
  match f with
  | Return code => ret code
  | Fallthrough => ui_write "Logged out from Studio";;; ret 0
  end.

(** ** CmdStudioToken *)

Definition CmdStudioToken_run : M Z :=
  conf <- config_read "global";;
  let token := get_in conf ("studio", "token") in
  match token with
  | Some t =>
      if py_not token then ui_error_write "Not logged in to Studio.";;; ret 1
      else ui_write t;;; ret 0
  | None => ui_error_write "Not logged in to Studio.";;; ret 1
  end.

(** The Token command's read of [studio.token] from the "global" scope. *)
Definition readToken (w : World) : option string :=
  get_in (load_one (store w) "global") ("studio", "token").

(** The stored [studio.url] of the "global" scope. *)
Definition readUrl (w : World) : option string :=
  get_in (load_one (store w) "global") ("studio", "url").

(** ** Names for what the commands are observed to do *)

Definition not_logged_in : event := UiErrorWrite "Not logged in to Studio.".

(** The scopes handed to the authorization service. *)
Definition forwarded_scopes (args : Args) : list string :=
  str_split comma (or_else (scopes args) DEFAULT_SCOPES).

(** The call that opens every Login run. *)
Definition start_call (args : Args) (name hostname : string) : event :=
  StartDeviceLogin "dvc" hostname name (forwarded_scopes args).

(** The two lines printed for manual entry. *)
Definition manual_instructions (response : DeviceLoginResponse)
  : list event :=
  [UiWrite (manual_url_message (verification_uri response));
   UiWrite (manual_code_message (user_code response))].

(** The address the browser is launched at. *)
Definition browser_url (response : DeviceLoginResponse) : string :=
  verification_uri response +:+ "?code=" +:+ user_code response.

(** What the presenting step of [initiate_authorization] does, as events. *)
Definition instructions (env : Env) (args : Args)
    (response : DeviceLoginResponse) : list event :=
  if use_device_code args then manual_instructions response
  else
    [UiWrite (browser_message (verification_uri response));
     WebbrowserOpen (browser_url response)]
    ++ (if webbrowser_open env (browser_url response) then []
        else manual_instructions response).

(** Sample collaborators: an environment in which the authorization
    service answers with a fixed response and the given completion result,
    and the browser launch gives the given outcome. *)
Definition sample_response : DeviceLoginResponse :=
  mkResponse "https://studio.example/auth" "ABCD-1234" "device-77"
    "https://studio.example/api/token".

Definition sample_env (start : result DeviceLoginResponse)
    (completion : result (option string)) (opened : bool) : Env :=
  mkEnv {[ "DVC_STUDIO_URL" := "https://env.example" ]} "DVC_STUDIO_URL"
    "https://studio.iterative.ai" "wry-cubs"
    (λ _ _ _ _, start) (λ _ _, completion) (λ _, opened).

Definition no_args : Args := mkArgs None None None false.

Definition empty_world : World := mkWorld ∅ [].

(** ** Counting what a run does *)


Definition is_start_call (e : event) : bool :=
  match e with StartDeviceLogin _ _ _ _ => true | _ => false end.

Definition is_check_call (e : event) : bool :=
  match e with CheckTokenAuthorization _ _ => true | _ => false end.

Definition is_browser_launch (e : event) : bool :=
  match e with WebbrowserOpen _ => true | _ => false end.

(** How many of the events satisfy the test. *)
Definition count_events (p : event → bool) (evs : list event) : nat :=
  length (List.filter p evs).

(** * Properties *)

(** ** The store *)

Section store_facts.
Implicit Types (st : Store) (conf : Conf) (level k : string).

Lemma load_one_studio st level :
  load_one st level !! "studio"
  = Some (default ∅ (default ∅ (st !! level) !! "studio")).
Proof. unfold load_one. cbn. by rewrite lookup_insert_eq. Qed.

Lemma get_in_load_one st level k :
  get_in (load_one st level) ("studio", k)
  = default ∅ (default ∅ (st !! level) !! "studio") !! k.
Proof. unfold get_in. cbn. by rewrite load_one_studio. Qed.

Lemma load_one_commit st level conf :
  load_one (<[level := conf]> st) level
  = <["studio" := default ∅ (conf !! "studio")]> conf.
Proof. unfold load_one. by rewrite lookup_insert_eq. Qed.

Lemma load_one_commit_ne st level level' conf :
  level ≠ level' →
  load_one (<[level := conf]> st) level' = load_one st level'.
Proof. intros Hne. unfold load_one. by rewrite lookup_insert_ne. Qed.

(** Committing a configuration that has a [studio] section and loading it
    again gives it back. *)
Lemma load_one_commit_id st level conf :
  is_Some (conf !! "studio") →
  load_one (<[level := conf]> st) level = conf.
Proof.
  intros [sec Hsec]. rewrite load_one_commit, Hsec. cbn.
  by apply insert_id.
Qed.

(** Writing back what was loaded changes no reading of the store. *)
Lemma load_one_writeback st level level' :
  load_one (<[level := load_one st level]> st) level' = load_one st level'.
Proof.
  destruct (decide (level = level')) as [<-|Hne].
  - apply load_one_commit_id. rewrite load_one_studio. eauto.
  - by apply load_one_commit_ne.
Qed.


Lemma truthy_Some_nonempty (x : option string) :
  truthy x = true ↔ ∃ s, x = Some s ∧ s ≠ "".
Proof.
  unfold truthy. destruct x as [s|]; [case_decide|]; split;
    try discriminate; try done.
  - intros (s' & [= <-] & Hne). done.
  - eauto.
  - intros (s' & ? & _). discriminate.
Qed.
End store_facts.

(** ** Logout and Token on a single configuration *)

Lemma logout_body_falsy (conf : Conf) (w : World) :
  truthy (get_in conf ("studio", "token")) = false →
  logout_body conf w = (Ok (Return 1, conf), emit not_logged_in w).
Proof. intros H. unfold logout_body, py_not. by rewrite H. Qed.

Lemma logout_body_truthy (conf : Conf) (w : World) :
  truthy (get_in conf ("studio", "token")) = true →
  ∃ sec t, conf !! "studio" = Some sec ∧ sec !! "token" = Some t ∧ t ≠ ""
    ∧ delitem2 conf "studio" "token"
      = Ok (<["studio" := delete "token" sec]> conf)
    ∧ logout_body conf w
      = (Ok (Fallthrough, <["studio" := delete "token" sec]> conf), w).
Proof.
  intros H. pose proof H as (t & Ht & Hne)%truthy_Some_nonempty.
  unfold get_in in Ht. cbn in Ht.
  destruct (conf !! "studio") as [sec|] eqn:Hsec; [|done].
  exists sec, t. split_and!; try done.
  - unfold delitem2. by rewrite Hsec, Ht.
  - unfold logout_body, py_not. rewrite H. cbn.
    unfold bind, lift, delitem2. by rewrite Hsec, Ht.
Qed.

Lemma logout_run_falsy (w : World) :
  truthy (readToken w) = false →
  CmdStudioLogout_run w
  = (Ok 1, mkWorld (<["global" := load_one (store w) "global"]> (store w))
             (trace w ++ [not_logged_in])).
Proof.
  intros H. unfold CmdStudioLogout_run, bind, config_edit.
  by rewrite logout_body_falsy.
Qed.

Lemma logout_run_truthy (w : World) :
  truthy (readToken w) = true →
  ∃ sec, load_one (store w) "global" !! "studio" = Some sec
    ∧ CmdStudioLogout_run w
      = (Ok 0,
         mkWorld (<["global" := <["studio" := delete "token" sec]>
                                  (load_one (store w) "global")]> (store w))
           (trace w ++ [UiWrite "Logged out from Studio"])).
Proof.
  intros H.
  destruct (logout_body_truthy (load_one (store w) "global") w H)
    as (sec & t & Hsec & _ & _ & _ & Hbody).
  exists sec. split; [done|].
  unfold CmdStudioLogout_run, bind, config_edit. by rewrite Hbody.
Qed.

Lemma token_run_falsy (w : World) :
  truthy (readToken w) = false →
  CmdStudioToken_run w = (Ok 1, emit not_logged_in w).
Proof.
  unfold readToken. intros H.
  unfold CmdStudioToken_run, bind, config_read, py_not.
  destruct (get_in _ _); [by rewrite H|done].
Qed.

Lemma token_run_truthy (w : World) (t : string) :
  readToken w = Some t → t ≠ "" →
  CmdStudioToken_run w = (Ok 0, emit (UiWrite t) w).
Proof.
  unfold readToken. intros H Hne.
  unfold CmdStudioToken_run, bind, config_read, py_not.
  rewrite H. cbn. by case_decide.
Qed.

(** ** Saving the credential *)

Lemma save_config_spec (hostname token : string) (w : World) :
  ∃ conf',
    save_config hostname token w
    = (Ok (), mkWorld (<["global" := conf']> (store w)) (trace w))
    ∧ is_Some (conf' !! "studio")
    ∧ get_in conf' ("studio", "token") = Some token
    ∧ get_in conf' ("studio", "url") = Some hostname.
Proof.
  set (conf := load_one (store w) "global").
  set (sec := default ∅ (default ∅ (store w !! "global") !! "studio")).
  assert (Hsec : conf !! "studio" = Some sec) by apply load_one_studio.
  set (conf1 := <["studio" := <["token" := token]> sec]> conf).
  exists (<["studio" := <["url" := hostname]> (<["token" := token]> sec)]>
            conf1).
  split_and!.
  - unfold save_config, config_edit, bind, lift, ret. fold conf.
    unfold setitem2 at 1. rewrite Hsec. fold conf1.
    unfold setitem2. unfold conf1 at 1. by rewrite lookup_insert_eq.
  - rewrite lookup_insert_eq. eauto.
  - unfold get_in. cbn. rewrite lookup_insert_eq.
    rewrite lookup_insert_ne by done. by rewrite lookup_insert_eq.
  - unfold get_in. cbn. rewrite lookup_insert_eq. by rewrite lookup_insert_eq.
Qed.

(** C1. For every hostname, token and world, [save_config hostname token]
    returns normally, and the Token command's read of [studio.token] from
    the "global" scope afterwards gives exactly [token] (and [studio.url]
    gives [hostname]); the Token command run on the resulting world prints
    that token and exits 0 unless the token is the empty string. *)
Theorem save_then_readToken (hostname token : string) (w : World) :
  ∃ w', save_config hostname token w = (Ok (), w')
    ∧ readToken w' = Some token
    ∧ readUrl w' = Some hostname
    ∧ trace w' = trace w
    ∧ CmdStudioToken_run w'
      = if decide (token = "") then (Ok 1, emit not_logged_in w')
        else (Ok 0, emit (UiWrite token) w').
Proof.
  destruct (save_config_spec hostname token w)
    as (conf' & Hrun & Hstudio & Htok & Hurl).
  eexists. split; [exact Hrun|].
  assert (Hread : readToken
            (mkWorld (<["global" := conf']> (store w)) (trace w))
          = Some token).
  { unfold readToken. cbn. by rewrite load_one_commit_id. }
  split_and!; try done.
  - unfold readUrl. cbn. by rewrite load_one_commit_id.
  - case_decide as Hempty.
    + apply token_run_falsy. rewrite Hread, Hempty. done.
    + by apply token_run_truthy.
Qed.

(** ** Logout *)




(** C4, as the code has it.  On every world whose "global" scope holds a
    non-empty [studio.token], the Logout command returns exit code 0 after
    writing "Logged out from Studio"; afterwards [studio.token] is absent,
    [studio.url] and every other field of the section read as before, and
    the other sections and scopes are untouched. *)
Theorem logout_with_token (w : World) (t : string) :
  readToken w = Some t → t ≠ "" →
  ∃ w', CmdStudioLogout_run w = (Ok 0, w')
    ∧ trace w' = trace w ++ [UiWrite "Logged out from Studio"]
    ∧ readToken w' = None
    ∧ readUrl w' = readUrl w
    ∧ (∀ k, k ≠ "token" →
         get_in (load_one (store w') "global") ("studio", k)
         = get_in (load_one (store w) "global") ("studio", k))
    ∧ (∀ k, k ≠ "studio" →
         load_one (store w') "global" !! k = load_one (store w) "global" !! k)
    ∧ (∀ level, level ≠ "global" → store w' !! level = store w !! level).
Proof.
  intros Htok Hne.
  assert (Htruthy : truthy (readToken w) = true).
  { apply truthy_Some_nonempty. eauto. }
  destruct (logout_run_truthy w Htruthy) as (sec & Hsec & Hrun).
  eexists. split; [exact Hrun|]. cbn.
  set (conf := load_one (store w) "global") in *.
  assert (Hload : load_one
            (<["global" := <["studio" := delete "token" sec]> conf]> (store w))
            "global"
          = <["studio" := delete "token" sec]> conf).
  { apply load_one_commit_id. rewrite lookup_insert_eq. eauto. }
  assert (Hfield : ∀ k,
            get_in (<["studio" := delete "token" sec]> conf) ("studio", k)
            = delete "token" sec !! k).
  { intros k. unfold get_in. cbn. by rewrite lookup_insert_eq. }
  assert (Hold : ∀ k, get_in conf ("studio", k) = sec !! k).
  { intros k. unfold get_in. cbn. by rewrite Hsec. }
  split_and!; try done.
  - unfold readToken. cbn. rewrite Hload, Hfield. apply lookup_delete_eq.
  - unfold readUrl. cbn. rewrite Hload, Hfield, Hold.
    by apply lookup_delete_ne.
  - intros k Hk. rewrite Hload, Hfield, Hold. by apply lookup_delete_ne.
  - intros k Hk. rewrite Hload. by apply lookup_insert_ne.
  - intros level Hlevel. by apply lookup_insert_ne.
Qed.

Lemma logout_with_token_witness :
  let w := mkWorld {[ "global" := {[ "studio" := {[ "token" := "abc123"; "url" := "https://studio.example" ]} ]} ]} [] in
  ∃ w', CmdStudioLogout_run w = (Ok 0, w')
    ∧ readToken w' = None
    ∧ readUrl w' = Some "https://studio.example".
Proof.
  intros w.
  assert (Htok : readToken w = Some "abc123") by reflexivity.
  assert (Hne : "abc123" ≠ "") by discriminate.
  destruct (logout_with_token w "abc123" Htok Hne)
    as (w' & Hrun & _ & Hgone & Hurl & _).
  exists w'. split_and!; [exact Hrun|exact Hgone|].
  rewrite Hurl. reflexivity.
Defined.

(** C4 as stated fails: a present but empty [studio.token] is not deleted,
    and Logout returns exit code 1. *)
Lemma logout_present_empty_token_counterexample :
  ¬ (∀ (w : World) (t : string),
       readToken w = Some t →
       ∃ w', CmdStudioLogout_run w = (Ok 0, w') ∧ readToken w' = None).
Proof.
  intros H.
  set (w := mkWorld {[ "global" := {[ "studio" := {[ "token" := "" ]} ]} ]} []).
  assert (Htok : readToken w = Some "") by reflexivity.
  destruct (H w "" Htok) as (w' & Hrun & _).
  vm_compute in Hrun. discriminate Hrun.
Qed.

(** C9. A [studio.token] that is present but empty is treated as an absent
    one by both commands: Logout and Token each write the error message
    "Not logged in to Studio." and return exit code 1; Logout leaves every
    scope of the store reading as before, Token leaves the store alone. *)
Theorem falsy_token_is_not_logged_in (w : World) :
  readToken w = Some "" ∨ readToken w = None →
  (∃ w', CmdStudioLogout_run w = (Ok 1, w')
     ∧ trace w' = trace w ++ [UiErrorWrite "Not logged in to Studio."]
     ∧ (∀ level, load_one (store w') level = load_one (store w) level))
  ∧ CmdStudioToken_run w
    = (Ok 1, mkWorld (store w)
               (trace w ++ [UiErrorWrite "Not logged in to Studio."])).
Proof.
  intros Hfalsy.
  assert (H : truthy (readToken w) = false) by by destruct Hfalsy as [-> | ->].
  split.
  - eexists. split; [by apply logout_run_falsy|]. cbn.
    split; [done|]. intros level. apply load_one_writeback.
  - by apply token_run_falsy.
Qed.

Lemma falsy_token_is_not_logged_in_witness :
  let w := mkWorld {[ "global" := {[ "studio" := {[ "token" := ""; "url" := "https://studio.example" ]} ]} ]} [] in
  readToken w = Some ""
  ∧ (CmdStudioLogout_run w).1 = Ok 1
  ∧ (CmdStudioToken_run w).1 = Ok 1.
Proof.
  intros w.
  assert (Htok : readToken w = Some "") by reflexivity.
  destruct (falsy_token_is_not_logged_in w (or_introl Htok))
    as [(w' & Hlogout & _) Htoken].
  split_and!; [exact Htok| by rewrite Hlogout | by rewrite Htoken].
Defined.

(** C10. The [del conf["studio"]["token"]] of Logout is reached only past
    the guard, and the guard passing means that the section [studio] exists
    and holds a non-empty [token], so the deletion succeeds; hence, for any
    configuration whatever (with or without a [studio] section), the body
    of the [with] block raises nothing, and the command returns an exit
    code on every world. *)
Theorem logout_delete_never_missing_key (conf : Conf) (w : World) :
  (py_not (get_in conf ("studio", "token")) = false →
   ∃ sec t, conf !! "studio" = Some sec ∧ sec !! "token" = Some t ∧ t ≠ ""
     ∧ delitem2 conf "studio" "token"
       = Ok (<["studio" := delete "token" sec]> conf))
  ∧ (∃ f conf' w', logout_body conf w = (Ok (f, conf'), w'))
  ∧ (∃ code w', CmdStudioLogout_run w = (Ok code, w')).
Proof.
  split_and!.
  - intros Hguard. apply negb_false_iff in Hguard.
    destruct (logout_body_truthy conf w Hguard)
      as (sec & t & ? & ? & ? & ? & _).
    eauto 10.
  - destruct (truthy (get_in conf ("studio", "token"))) eqn:Hguard.
    + destruct (logout_body_truthy conf w Hguard)
        as (sec & t & _ & _ & _ & _ & ->).
      eauto.
    + rewrite logout_body_falsy by done. eauto.
  - destruct (truthy (readToken w)) eqn:Hguard.
    + destruct (logout_run_truthy w Hguard) as (sec & _ & ->). eauto.
    + rewrite logout_run_falsy by done. eauto.
Qed.

Lemma logout_delete_never_missing_key_witness :
  let conf : Conf := {[ "studio" := {[ "token" := "abc123" ]} ]} in
  py_not (get_in conf ("studio", "token")) = false
  ∧ ∃ conf', delitem2 conf "studio" "token" = Ok conf'.
Proof.
  intros conf.
  assert (Hguard : py_not (get_in conf ("studio", "token")) = false)
    by reflexivity.
  split; [exact Hguard|].
  destruct (proj1 (logout_delete_never_missing_key conf (mkWorld ∅ []))
              Hguard) as (sec & t & _ & _ & _ & Hdel).
  eexists. exact Hdel.
Defined.

(** ** Splitting the scopes *)

Section split_facts.
Variable sep : ascii.

Lemma str_split_nonempty (s : string) : str_split sep s ≠ [].
Proof.
  destruct s as [|c rest]; cbn; [done|].
  destruct (Ascii.eqb c sep); [done|].
  by destruct (str_split sep rest).
Qed.

Lemma str_join_cons (p : string) (ps : list string) :
  ps ≠ [] → str_join sep (p :: ps) = p +:+ String sep (str_join sep ps).
Proof. by destruct ps. Qed.

Lemma str_join_cons_char (c : ascii) (p : string) (ps : list string) :
  str_join sep (String c p :: ps) = String c (str_join sep (p :: ps)).
Proof. by destruct ps. Qed.

(** Joining the pieces with the separator gives the string back. *)
Lemma str_join_split (s : string) : str_join sep (str_split sep s) = s.
Proof.
  induction s as [|c rest IH]; [done|]. cbn [str_split].
  destruct (Ascii.eqb c sep) eqn:Hc.
  - apply Ascii.eqb_eq in Hc as ->.
    rewrite str_join_cons by apply str_split_nonempty.
    cbn. by rewrite IH.
  - pose proof (str_split_nonempty rest) as Hne.
    destruct (str_split sep rest) as [|piece pieces]; [done|].
    rewrite str_join_cons_char. by rewrite IH.
Qed.

(** No piece contains the separator. *)
Lemma str_split_no_sep (s : string) :
  Forall (λ p, str_contains sep p = false) (str_split sep s).
Proof.
  induction s as [|c rest IH]; cbn [str_split].
  - by constructor.
  - destruct (Ascii.eqb c sep) eqn:Hc.
    + by constructor.
    + destruct (str_split sep rest) as [|piece pieces].
      * constructor; [|done]. cbn. by rewrite Hc.
      * inversion IH as [|? ? Hpiece Hpieces]; subst.
        constructor; [|done]. cbn. by rewrite Hc.
Qed.
End split_facts.

(** ** Login *)

Lemma emit_trace (e : event) (w : World) (evs : list event) (st : Store) :
  emit e (mkWorld st (trace w ++ evs)) = mkWorld st (trace w ++ evs ++ [e]).
Proof. unfold emit. cbn. by rewrite <- app_assoc. Qed.

Lemma emit_first (e : event) (w : World) :
  emit e w = mkWorld (store w) (trace w ++ [e]).
Proof. done. Qed.

Lemma initiate_authorization_ok env args name hostname w response :
  start_device_login env "dvc" hostname name (forwarded_scopes args)
  = Ok response →
  initiate_authorization env args name hostname w
  = (Ok (device_code response, token_uri response),
     mkWorld (store w)
       (trace w ++ start_call args name hostname
                   :: instructions env args response)).
Proof.
  intros Hstart.
  unfold initiate_authorization, bind, call_start_device_login.
  fold (forwarded_scopes args). rewrite Hstart.
  unfold instructions, browser_url, start_call, manual_instructions.
  rewrite emit_first.
  destruct (use_device_code args); cbn.
  - unfold ui_write, ret. by rewrite !emit_trace.
  - unfold ui_write, call_webbrowser_open, ret. rewrite !emit_trace. cbn.
    destruct (webbrowser_open env _); cbn; [done|].
    by rewrite !emit_trace.
Qed.

Lemma initiate_authorization_raise env args name hostname w e :
  start_device_login env "dvc" hostname name (forwarded_scopes args)
  = Raise e →
  initiate_authorization env args name hostname w
  = (Raise e,
     mkWorld (store w) (trace w ++ [start_call args name hostname])).
Proof.
  intros Hstart.
  unfold initiate_authorization, bind, call_start_device_login.
  fold (forwarded_scopes args). by rewrite Hstart.
Qed.

Section login_run.
Variables (env : Env) (args : Args) (w : World).

Local Abbreviation name' := (resolve_name env args).
Local Abbreviation hostname' := (resolve_hostname env args).
Local Abbreviation start_result :=
  (start_device_login env "dvc" hostname' name' (forwarded_scopes args)).
Local Abbreviation first_call := (start_call args name' hostname').
Local Abbreviation check_call response :=
  (CheckTokenAuthorization (token_uri response) (device_code response)).

Lemma login_run_ValueError (msg : string) :
  start_result = Raise (ValueError msg) →
  CmdStudioLogin_run env args w
  = (Ok 1, mkWorld (store w) (trace w ++ [first_call; UiErrorWrite msg])).
Proof.
  intros Hstart. unfold CmdStudioLogin_run, bind, try_except_ValueError.
  rewrite (initiate_authorization_raise _ _ _ _ _ _ Hstart).
  unfold ui_error_write, ret. by rewrite emit_trace.
Qed.

Lemma login_run_start_raises (e : exn) :
  start_result = Raise e → (∀ msg, e ≠ ValueError msg) →
  CmdStudioLogin_run env args w
  = (Raise e, mkWorld (store w) (trace w ++ [first_call])).
Proof.
  intros Hstart Hother. unfold CmdStudioLogin_run, bind at 1.
  unfold try_except_ValueError, bind.
  rewrite (initiate_authorization_raise _ _ _ _ _ _ Hstart).
  destruct e; try done. by destruct (Hother msg).
Qed.

Lemma login_run_check_raises (response : DeviceLoginResponse) (e : exn) :
  start_result = Ok response →
  check_token_authorization env (token_uri response) (device_code response)
  = Raise e →
  CmdStudioLogin_run env args w
  = (Raise e,
     mkWorld (store w)
       (trace w ++ first_call :: instructions env args response
                ++ [check_call response])).
Proof.
  intros Hstart Hcheck.
  unfold CmdStudioLogin_run, bind, try_except_ValueError.
  rewrite (initiate_authorization_ok _ _ _ _ _ _ Hstart).
  unfold ret, call_check_token_authorization. rewrite Hcheck.
  by rewrite emit_trace.
Qed.

Lemma login_run_expired (response : DeviceLoginResponse)
    (access_token : option string) :
  start_result = Ok response →
  check_token_authorization env (token_uri response) (device_code response)
  = Ok access_token →
  truthy access_token = false →
  CmdStudioLogin_run env args w
  = (Ok 1,
     mkWorld (store w)
       (trace w ++ first_call :: instructions env args response
                ++ [check_call response; UiWrite expired_message])).
Proof.
  intros Hstart Hcheck Hfalsy.
  unfold CmdStudioLogin_run, bind, try_except_ValueError.
  rewrite (initiate_authorization_ok _ _ _ _ _ _ Hstart).
  unfold ret, call_check_token_authorization. rewrite Hcheck.
  rewrite emit_trace. unfold py_not. rewrite Hfalsy. cbn [negb].
  unfold ui_write.
  destruct access_token; rewrite emit_trace; cbn; by rewrite <- !app_assoc.
Qed.

Lemma login_run_success (response : DeviceLoginResponse) (token : string) :
  start_result = Ok response →
  check_token_authorization env (token_uri response) (device_code response)
  = Ok (Some token) →
  token ≠ "" →
  ∃ conf',
    CmdStudioLogin_run env args w
    = (Ok 0,
       mkWorld (<["global" := conf']> (store w))
         (trace w ++ first_call :: instructions env args response
                  ++ [check_call response;
                      UiWrite (success_message name')]))
    ∧ is_Some (conf' !! "studio")
    ∧ get_in conf' ("studio", "token") = Some token
    ∧ get_in conf' ("studio", "url") = Some hostname'.
Proof.
  intros Hstart Hcheck Hne.
  unfold CmdStudioLogin_run, bind, try_except_ValueError.
  rewrite (initiate_authorization_ok _ _ _ _ _ _ Hstart).
  unfold ret, call_check_token_authorization. rewrite Hcheck.
  rewrite emit_trace. unfold py_not, truthy. rewrite decide_False by done.
  cbn [negb].
  match goal with
  | |- context [save_config ?h ?t ?w0] =>
      destruct (save_config_spec h t w0) as (conf' & -> & Hrest)
  end.
  exists conf'. split; [|exact Hrest]. cbn [store trace].
  unfold ui_write. rewrite emit_trace. cbn. by rewrite <- !app_assoc.
Qed.

(** Every run opens with the call to the authorization service. *)
Lemma login_run_first_call :
  ∃ evs, trace (CmdStudioLogin_run env args w).2
         = trace w ++ first_call :: evs.
Proof.
  destruct start_result as [response|e] eqn:Hstart.
  - destruct (check_token_authorization env (token_uri response)
                (device_code response)) as [tok|e] eqn:Hcheck.
    + destruct (truthy tok) eqn:Htok.
      * apply truthy_Some_nonempty in Htok as (t & -> & Hne).
        destruct (login_run_success _ _ Hstart Hcheck Hne)
          as (conf' & -> & _).
        eauto.
      * rewrite (login_run_expired _ _ Hstart Hcheck Htok). eauto.
    + rewrite (login_run_check_raises _ _ Hstart Hcheck). eauto.
  - destruct e as [k|msg|msg].
    + rewrite (login_run_start_raises _ Hstart); [eauto|done].
    + rewrite (login_run_ValueError _ Hstart). eauto.
    + rewrite (login_run_start_raises _ Hstart); [eauto|done].
Qed.
End login_run.

Lemma login_run_reaches_check env args w response :
  start_device_login env "dvc" (resolve_hostname env args)
    (resolve_name env args) (forwarded_scopes args) = Ok response →
  ∃ evs,
    trace (CmdStudioLogin_run env args w).2
    = trace w
      ++ start_call args (resolve_name env args) (resolve_hostname env args)
         :: instructions env args response
      ++ CheckTokenAuthorization (token_uri response) (device_code response)
         :: evs.
Proof.
  intros Hstart.
  destruct (check_token_authorization env (token_uri response)
              (device_code response)) as [tok|e] eqn:Hcheck.
  - destruct (truthy tok) eqn:Htok.
    + apply truthy_Some_nonempty in Htok as (t & -> & Hne).
      destruct (login_run_success _ _ w _ _ Hstart Hcheck Hne)
        as (conf' & -> & _).
      eauto.
    + rewrite (login_run_expired _ _ w _ _ Hstart Hcheck Htok). eauto.
  - rewrite (login_run_check_raises _ _ w _ _ Hstart Hcheck). eauto.
Qed.

Lemma last_snoc2 {A} (l : list A) (a : A) (l' : list A) (x y : A) :
  last (l ++ a :: l' ++ [x; y]) = Some y.
Proof.
  change [x; y] with ([x] ++ [y]).
  rewrite app_comm_cons, !app_assoc. apply last_snoc.
Qed.

(** C2, as the code has it.  The outcome of Login, by what the
    collaborators answer.  When [start_device_login] raises [ValueError],
    the one failure the command catches, the message is written as an error
    and the code is 1.  When it succeeds and the completion call gives a
    non-empty token, the code is 0, the token and the hostname are in the
    store and the success message is the last output.  When the completion
    call gives no token or an empty one, the code is 1 and the last output
    is the line saying that the device code has expired.  A failure of any
    other kind, of either collaborator, is not turned into an exit code: the
    run ends with that exception. *)
Theorem login_exit_codes (env : Env) (args : Args) (w : World) :
  let out := CmdStudioLogin_run env args w in
  match start_device_login env "dvc" (resolve_hostname env args)
          (resolve_name env args) (forwarded_scopes args) with
  | Raise (ValueError msg) =>
      out.1 = Ok 1 ∧ last (trace out.2) = Some (UiErrorWrite msg)
  | Raise e => out.1 = Raise e
  | Ok response =>
      match check_token_authorization env (token_uri response)
              (device_code response) with
      | Raise e => out.1 = Raise e
      | Ok access_token =>
          if truthy access_token then
            out.1 = Ok 0
            ∧ readToken out.2 = access_token
            ∧ readUrl out.2 = Some (resolve_hostname env args)
            ∧ last (trace out.2)
              = Some (UiWrite
                        ("Authentication successful. The token will be "
                         +:+ "available as " +:+ resolve_name env args
                         +:+ " in Studio profile."))
          else
            out.1 = Ok 1
            ∧ last (trace out.2)
              = Some (UiWrite
                        "failed to authenticate: This 'device_code' has expired.(expired_token)")
      end
  end.
Proof.
  cbn zeta.
  destruct (start_device_login _ _ _ _ _) as [response|e] eqn:Hstart.
  - destruct (check_token_authorization _ _ _) as [tok|e] eqn:Hcheck.
    + destruct (truthy tok) eqn:Htok.
      * apply truthy_Some_nonempty in Htok as (t & -> & Hne).
        destruct (login_run_success _ _ w _ _ Hstart Hcheck Hne)
          as (conf' & -> & Hstudio & Htoken & Hurl).
        cbn [fst snd]. split_and!; [done| | |apply last_snoc2].
        -- unfold readToken. cbn. by rewrite load_one_commit_id.
        -- unfold readUrl. cbn. by rewrite load_one_commit_id.
      * rewrite (login_run_expired _ _ w _ _ Hstart Hcheck Htok).
        cbn [fst snd trace]. split; [done|apply last_snoc2].
    + by rewrite (login_run_check_raises _ _ w _ _ Hstart Hcheck).
  - destruct e as [k|msg|msg].
    + by rewrite (login_run_start_raises _ _ w _ Hstart).
    + rewrite (login_run_ValueError _ _ w _ Hstart). cbn [fst snd trace].
      split; [done|]. change [?a; ?b] with ([a] ++ [b]).
      rewrite app_assoc. apply last_snoc.
    + by rewrite (login_run_start_raises _ _ w _ Hstart).
Qed.

(** C2 as stated fails: an initiation failure that is not a [ValueError],
    such as a connection error of the authorization service client, does
    not give exit code 1; the exception leaves the command. *)
Lemma login_uncaught_initiation_failure_counterexample :
  ¬ (∀ (env : Env) (args : Args) (w : World) (e : exn),
       start_device_login env "dvc" (resolve_hostname env args)
         (resolve_name env args) (forwarded_scopes args) = Raise e →
       (CmdStudioLogin_run env args w).1 = Ok 1).
Proof.
  intros H.
  specialize (H (sample_env (Raise (OtherError "ConnectionError")) (Ok None)
                   false)
                no_args empty_world (OtherError "ConnectionError") eq_refl).
  vm_compute in H. discriminate H.
Qed.

(** C5. A Login run that does not return exit code 0 leaves the store as
    it was.  In particular so do the two failing paths: initiation raising
    [ValueError], and the completion call giving no token or an empty one;
    both return exit code 1. *)
Theorem login_failure_writes_nothing (env : Env) (args : Args) (w : World) :
  let out := CmdStudioLogin_run env args w in
  (out.1 ≠ Ok 0 → store out.2 = store w)
  ∧ (∀ msg,
       start_device_login env "dvc" (resolve_hostname env args)
         (resolve_name env args) (forwarded_scopes args)
       = Raise (ValueError msg) →
       out.1 = Ok 1 ∧ store out.2 = store w)
  ∧ (∀ response access_token,
       start_device_login env "dvc" (resolve_hostname env args)
         (resolve_name env args) (forwarded_scopes args)
       = Ok response →
       check_token_authorization env (token_uri response)
         (device_code response) = Ok access_token →
       py_not access_token = true →
       out.1 = Ok 1 ∧ store out.2 = store w).
Proof.
  cbn zeta. split_and!.
  - intros Hfail.
    destruct (start_device_login env "dvc" (resolve_hostname env args)
                (resolve_name env args) (forwarded_scopes args))
      as [response|e] eqn:Hstart.
    + destruct (check_token_authorization env (token_uri response)
                  (device_code response)) as [tok|e] eqn:Hcheck.
      * destruct (truthy tok) eqn:Htok.
        -- apply truthy_Some_nonempty in Htok as (t & -> & Hne).
           destruct (login_run_success _ _ w _ _ Hstart Hcheck Hne)
             as (conf' & Hrun & _).
           rewrite Hrun in Hfail. by destruct Hfail.
        -- by rewrite (login_run_expired _ _ w _ _ Hstart Hcheck Htok).
      * by rewrite (login_run_check_raises _ _ w _ _ Hstart Hcheck).
    + destruct e as [k|msg|msg].
      * by rewrite (login_run_start_raises _ _ w _ Hstart).
      * by rewrite (login_run_ValueError _ _ w _ Hstart).
      * by rewrite (login_run_start_raises _ _ w _ Hstart).
  - intros msg Hstart. by rewrite (login_run_ValueError _ _ w _ Hstart).
  - intros response tok Hstart Hcheck Hfalsy.
    apply negb_true_iff in Hfalsy.
    by rewrite (login_run_expired _ _ w _ _ Hstart Hcheck Hfalsy).
Qed.

Lemma login_failure_writes_nothing_witness :
  let w := mkWorld {[ "global" := {[ "studio" := {[ "token" := "old" ]} ]} ]} [] in
  let rejecting := sample_env (Raise (ValueError "unreachable")) (Ok None) false in
  let expiring := sample_env (Ok sample_response) (Ok (Some "")) false in
  ((CmdStudioLogin_run rejecting no_args w).1 = Ok 1
   ∧ store (CmdStudioLogin_run rejecting no_args w).2 = store w)
  ∧ ((CmdStudioLogin_run expiring no_args w).1 = Ok 1
     ∧ store (CmdStudioLogin_run expiring no_args w).2 = store w)
  ∧ store (CmdStudioLogin_run expiring no_args w).2 = store w.
Proof.
  intros w rejecting expiring. split; [|split].
  - apply (proj1 (proj2 (login_failure_writes_nothing rejecting no_args w))
             "unreachable").
    reflexivity.
  - apply (proj2 (proj2 (login_failure_writes_nothing expiring no_args w))
             sample_response (Some "")); reflexivity.
  - apply (proj1 (login_failure_writes_nothing expiring no_args w)).
    vm_compute. discriminate.
Defined.

(** C6. The presenting step of Login, once [start_device_login] has
    answered.  Without [--use-device-code] the message telling the user to
    continue the login in the web browser is written and the browser is
    launched at the verification URI with the user code as the [code] query
    parameter; when the launch succeeds this message is all that is shown
    (it is written before the launch, so it is shown when the launch fails
    as well).  When the launch reports failure, or with [--use-device-code]
    (and then with no launch at all), the verification URI and the user code
    are printed for manual entry.  In every case [initiate_authorization]
    returns the device code and the token URI without raising, the store is
    untouched, and the run goes on to the completion call. *)
Theorem presenter_behaviour (env : Env) (args : Args) (w : World)
    (response : DeviceLoginResponse) :
  let name := resolve_name env args in
  let hostname := resolve_hostname env args in
  let url := verification_uri response +:+ "?code=" +:+ user_code response in
  let manual :=
    [UiWrite ("Please open the following url in your browser." +:+ nl
              +:+ verification_uri response);
     UiWrite ("And enter the user code below " +:+ user_code response
              +:+ " to authorize.")] in
  let continue_in_browser :=
    UiWrite
      ("A web browser has been opened at " +:+ nl
       +:+ verification_uri response +:+ "." +:+ nl
       +:+ "Please continue the login in the web browser." +:+ nl
       +:+ "If no web browser is available or if the web browser fails to open,"
       +:+ nl
       +:+ "use device code flow with `dvc studio login --use-device-code`.") in
  let shown :=
    if use_device_code args then manual
    else continue_in_browser
         :: WebbrowserOpen url
         :: (if webbrowser_open env url then [] else manual) in
  start_device_login env "dvc" hostname name (forwarded_scopes args)
  = Ok response →
  initiate_authorization env args name hostname w
  = (Ok (device_code response, token_uri response),
     mkWorld (store w)
       (trace w
        ++ StartDeviceLogin "dvc" hostname name (forwarded_scopes args)
           :: shown))
  ∧ ∃ evs,
      trace (CmdStudioLogin_run env args w).2
      = trace w
        ++ StartDeviceLogin "dvc" hostname name (forwarded_scopes args)
           :: shown
        ++ CheckTokenAuthorization (token_uri response)
             (device_code response)
           :: evs.
Proof.
  intros name hostname url manual continue_in_browser shown Hstart. split.
  - by rewrite (initiate_authorization_ok _ _ _ _ w _ Hstart).
  - by apply login_run_reaches_check.
Qed.

Lemma presenter_behaviour_witness :
  let env := sample_env (Ok sample_response) (Ok (Some "abc123")) false in
  initiate_authorization env no_args "wry-cubs" "https://env.example"
    empty_world
  = (Ok ("device-77", "https://studio.example/api/token"),
     mkWorld ∅
       [StartDeviceLogin "dvc" "https://env.example" "wry-cubs"
          AVAILABLE_SCOPES;
        UiWrite (browser_message "https://studio.example/auth");
        WebbrowserOpen "https://studio.example/auth?code=ABCD-1234";
        UiWrite (manual_url_message "https://studio.example/auth");
        UiWrite (manual_code_message "ABCD-1234")]).
Proof.
  intros env.
  exact (proj1 (presenter_behaviour env no_args empty_world sample_response
                  eq_refl)).
Defined.

(** C7. A supplied non-empty scopes string reaches [start_device_login]
    as its pieces between commas, in order, whatever they are: no piece is
    checked against [AVAILABLE_SCOPES].  The pieces hold no comma and,
    joined with commas, give the string back.  Without [--scopes] the five
    default scopes are sent.  ["live,view_url"] is sent as
    [["live"; "view_url"]]. *)
Theorem login_forwards_scopes (env : Env) (args : Args) (w : World) :
  (∀ s, scopes args = Some s → s ≠ "" →
     (∃ evs,
        trace (CmdStudioLogin_run env args w).2
        = trace w
          ++ StartDeviceLogin "dvc" (resolve_hostname env args)
               (resolve_name env args) (str_split comma s)
             :: evs)
     ∧ str_join comma (str_split comma s) = s
     ∧ Forall (λ piece, str_contains comma piece = false)
         (str_split comma s))
  ∧ (scopes args = None →
     ∃ evs,
       trace (CmdStudioLogin_run env args w).2
       = trace w
         ++ StartDeviceLogin "dvc" (resolve_hostname env args)
              (resolve_name env args)
              ["live"; "dvc_experiment"; "view_url"; "dql"; "download_model"]
            :: evs)
  ∧ str_split comma "live,view_url" = ["live"; "view_url"].
Proof.
  split_and!; [| |done].
  - intros s Hs Hne.
    split_and!; [|apply str_join_split|apply str_split_no_sep].
    destruct (login_run_first_call env args w) as (evs & Hrun).
    exists evs. rewrite Hrun. unfold start_call, forwarded_scopes.
    rewrite Hs. unfold or_else, py_or, truthy. by rewrite decide_False.
  - intros Hs.
    destruct (login_run_first_call env args w) as (evs & Hrun).
    exists evs. rewrite Hrun. unfold start_call, forwarded_scopes.
    by rewrite Hs.
Qed.

Lemma login_forwards_scopes_witness :
  let env := sample_env (Ok sample_response) (Ok (Some "abc123")) true in
  let args := mkArgs None None (Some "bogus,live") false in
  (("bogus" ∉ AVAILABLE_SCOPES)
   ∧ ∃ evs,
       trace (CmdStudioLogin_run env args empty_world).2
       = StartDeviceLogin "dvc" "https://env.example" "wry-cubs"
           ["bogus"; "live"] :: evs)
  ∧ ∃ evs,
      trace (CmdStudioLogin_run env no_args empty_world).2
      = StartDeviceLogin "dvc" "https://env.example" "wry-cubs"
          AVAILABLE_SCOPES :: evs.
Proof.
  intros env args. split; [split|].
  - unfold AVAILABLE_SCOPES. rewrite !elem_of_cons, elem_of_nil.
    intros [H|[H|[H|[H|[H|[]]]]]]; discriminate H.
  - assert (Hne : "bogus,live" ≠ "") by discriminate.
    exact (proj1 (proj1 (login_forwards_scopes env args empty_world)
                    "bogus,live" eq_refl Hne)).
  - exact (proj1 (proj2 (login_forwards_scopes env no_args empty_world))
             eq_refl).
Defined.

(** C8, as the code has it.  The hostname sent to the authorization
    service is [--hostname] when given and not empty, else the environment
    variable when set and not empty, else [STUDIO_URL]; the token name is
    [--name] when given and not empty, else the generated name. *)
Theorem login_resolves_hostname_and_name (env : Env) (args : Args)
    (w : World) :
  let from_env :=
    match environ env !! DVC_STUDIO_URL env with
    | Some e => if decide (e = "") then STUDIO_URL env else e
    | None => STUDIO_URL env
    end in
  let hostname' :=
    match hostname args with
    | Some h => if decide (h = "") then from_env else h
    | None => from_env
    end in
  let name' :=
    match name args with
    | Some n => if decide (n = "") then gen_random_name env else n
    | None => gen_random_name env
    end in
  resolve_hostname env args = hostname'
  ∧ resolve_name env args = name'
  ∧ ∃ evs,
      trace (CmdStudioLogin_run env args w).2
      = trace w
        ++ StartDeviceLogin "dvc" hostname' name' (forwarded_scopes args)
           :: evs.
Proof.
  intros from_env hostname' name'.
  assert (Hh : resolve_hostname env args = hostname').
  { unfold resolve_hostname, hostname', from_env, or_else, py_or, truthy.
    destruct (hostname args) as [h|]; [case_decide|];
      destruct (environ env !! DVC_STUDIO_URL env) as [e|];
      try case_decide; try done; by rewrite ?decide_False. }
  assert (Hn : resolve_name env args = name').
  { unfold resolve_name, name', or_else, py_or, truthy.
    destruct (name args) as [n|]; [case_decide|]; done. }
  split_and!; [done..|].
  destruct (login_run_first_call env args w) as (evs & Hrun).
  exists evs. rewrite Hrun. unfold start_call. by rewrite Hh, Hn.
Qed.

(** C8 as stated fails on empty strings: an empty [--hostname] is passed
    over for the environment variable, an environment variable set to the
    empty string is passed over for [STUDIO_URL], and an empty [--name] is
    replaced by a generated name. *)
Lemma login_empty_argument_counterexample :
  let env := sample_env (Ok sample_response) (Ok (Some "abc123")) true in
  let env_empty :=
    mkEnv {[ "DVC_STUDIO_URL" := "" ]} "DVC_STUDIO_URL"
      "https://studio.iterative.ai" "wry-cubs"
      (λ _ _ _ _, Ok sample_response) (λ _ _, Ok (Some "abc123"))
      (λ _, true) in
  let args := mkArgs (Some "") (Some "") None false in
  hostname args = Some "" ∧ name args = Some ""
  ∧ environ env_empty !! DVC_STUDIO_URL env_empty = Some ""
  ∧ head (trace (CmdStudioLogin_run env args empty_world).2)
    = Some (StartDeviceLogin "dvc" "https://env.example" "wry-cubs"
              AVAILABLE_SCOPES)
  ∧ head (trace (CmdStudioLogin_run env_empty no_args empty_world).2)
    = Some (StartDeviceLogin "dvc" "https://studio.iterative.ai" "wry-cubs"
              AVAILABLE_SCOPES)
  ∧ ¬ (∀ env args w h,
         hostname args = Some h →
         ∃ token_name scopes evs,
           trace (CmdStudioLogin_run env args w).2
           = trace w ++ StartDeviceLogin "dvc" h token_name scopes :: evs).
Proof.
  intros env env_empty args. split_and!; try reflexivity.
  intros H.
  destruct (H env args empty_world "" eq_refl) as (n & sc & evs & Hrun).
  vm_compute in Hrun. discriminate Hrun.
Qed.

(** * Further properties of the commands *)

(** ** What a successful Login run went through *)

Lemma login_run_Ok0_inv env args w :
  (CmdStudioLogin_run env args w).1 = Ok 0 →
  ∃ response token,
    start_device_login env "dvc" (resolve_hostname env args)
      (resolve_name env args) (forwarded_scopes args) = Ok response
    ∧ check_token_authorization env (token_uri response)
        (device_code response) = Ok (Some token)
    ∧ token ≠ "".
Proof.
  intros Hok.
  destruct (start_device_login env "dvc" (resolve_hostname env args)
              (resolve_name env args) (forwarded_scopes args))
    as [response|e] eqn:Hstart.
  - destruct (check_token_authorization env (token_uri response)
                (device_code response)) as [tok|e] eqn:Hcheck.
    + destruct (truthy tok) eqn:Htok.
      * apply truthy_Some_nonempty in Htok as (t & -> & Hne). eauto.
      * rewrite (login_run_expired _ _ w _ _ Hstart Hcheck Htok) in Hok.
        discriminate Hok.
    + rewrite (login_run_check_raises _ _ w _ _ Hstart Hcheck) in Hok.
      discriminate Hok.
  - destruct e as [k|msg|msg].
    + rewrite (login_run_start_raises _ _ w _ Hstart) in Hok by done.
      discriminate Hok.
    + rewrite (login_run_ValueError _ _ w _ Hstart) in Hok.
      discriminate Hok.
    + rewrite (login_run_start_raises _ _ w _ Hstart) in Hok by done.
      discriminate Hok.
Qed.

Lemma login_run_Ok0_reads env args w :
  (CmdStudioLogin_run env args w).1 = Ok 0 →
  ∃ response token,
    start_device_login env "dvc" (resolve_hostname env args)
      (resolve_name env args) (forwarded_scopes args) = Ok response
    ∧ check_token_authorization env (token_uri response)
        (device_code response) = Ok (Some token)
    ∧ token ≠ ""
    ∧ readToken (CmdStudioLogin_run env args w).2 = Some token
    ∧ readUrl (CmdStudioLogin_run env args w).2
      = Some (resolve_hostname env args).
Proof.
  intros Hok.
  destruct (login_run_Ok0_inv env args w Hok)
    as (response & token & Hstart & Hcheck & Hne).
  exists response, token. split_and!; try done.
  - destruct (login_run_success _ _ w _ _ Hstart Hcheck Hne)
      as (conf' & -> & Hstudio & Htoken & _).
    unfold readToken. cbn. by rewrite load_one_commit_id.
  - destruct (login_run_success _ _ w _ _ Hstart Hcheck Hne)
      as (conf' & -> & Hstudio & _ & Hurl).
    unfold readUrl. cbn. by rewrite load_one_commit_id.
Qed.

(** What Logout leaves behind when the token is non-empty. *)
Lemma logout_run_truthy_reads (w : World) :
  truthy (readToken w) = true →
  ∃ w', CmdStudioLogout_run w = (Ok 0, w')
    ∧ readToken w' = None
    ∧ readUrl w' = readUrl w.
Proof.
  intros Htruthy.
  destruct (logout_run_truthy w Htruthy) as (sec & Hsec & Hrun).
  eexists. split; [exact Hrun|].
  set (conf := load_one (store w) "global") in *.
  assert (Hload : load_one
            (<["global" := <["studio" := delete "token" sec]> conf]> (store w))
            "global"
          = <["studio" := delete "token" sec]> conf).
  { apply load_one_commit_id. rewrite lookup_insert_eq. eauto. }
  unfold readToken, readUrl. cbn. rewrite Hload. unfold get_in. cbn.
  rewrite lookup_insert_eq. fold conf. rewrite Hsec. split.
  - apply lookup_delete_eq.
  - by apply lookup_delete_ne.
Qed.

(** What Logout leaves behind when the token is absent or empty. *)
Lemma logout_run_falsy_reads (w : World) :
  truthy (readToken w) = false →
  ∃ w', CmdStudioLogout_run w = (Ok 1, w')
    ∧ readToken w' = readToken w
    ∧ readUrl w' = readUrl w.
Proof.
  intros Hfalsy. eexists. split; [by apply logout_run_falsy|].
  unfold readToken, readUrl. cbn. by rewrite load_one_writeback.
Qed.

(** ** Commands in sequence *)

(** X1. Whenever a Login run returns exit code 0, the Token command run
    next prints exactly the token the completion call returned, as its only
    output, and exits 0. *)
Theorem login_then_token (env : Env) (args : Args) (w : World) :
  (CmdStudioLogin_run env args w).1 = Ok 0 →
  ∃ response token,
    start_device_login env "dvc" (resolve_hostname env args)
      (resolve_name env args) (forwarded_scopes args) = Ok response
    ∧ check_token_authorization env (token_uri response)
        (device_code response) = Ok (Some token)
    ∧ CmdStudioToken_run (CmdStudioLogin_run env args w).2
      = (Ok 0,
         mkWorld (store (CmdStudioLogin_run env args w).2)
           (trace (CmdStudioLogin_run env args w).2 ++ [UiWrite token])).
Proof.
  intros Hok.
  destruct (login_run_Ok0_reads env args w Hok)
    as (response & token & Hstart & Hcheck & Hne & Htoken & _).
  exists response, token. split_and!; [done..|].
  by apply token_run_truthy.
Qed.

Lemma login_then_token_witness :
  CmdStudioToken_run
    (CmdStudioLogin_run
       (sample_env (Ok sample_response) (Ok (Some "abc123")) true)
       no_args empty_world).2
  = (Ok 0,
     mkWorld
       (store (CmdStudioLogin_run
                 (sample_env (Ok sample_response) (Ok (Some "abc123")) true)
                 no_args empty_world).2)
       (trace (CmdStudioLogin_run
                 (sample_env (Ok sample_response) (Ok (Some "abc123")) true)
                 no_args empty_world).2 ++ [UiWrite "abc123"])).
Proof.
  destruct (login_then_token
              (sample_env (Ok sample_response) (Ok (Some "abc123")) true)
              no_args empty_world eq_refl)
    as (response & token & _ & Hcheck & Hrun).
  injection Hcheck as <-. exact Hrun.
Defined.

(** X2. Whenever a Login run returns exit code 0, a Logout run next
    returns exit code 0 and leaves no [studio.token] while [studio.url]
    still holds the hostname of the login; after that the Token command and
    a further Logout both return exit code 1. *)
Theorem login_then_logout (env : Env) (args : Args) (w : World) :
  (CmdStudioLogin_run env args w).1 = Ok 0 →
  ∃ w', CmdStudioLogout_run (CmdStudioLogin_run env args w).2 = (Ok 0, w')
    ∧ readToken w' = None
    ∧ readUrl w' = Some (resolve_hostname env args)
    ∧ (CmdStudioToken_run w').1 = Ok 1
    ∧ (CmdStudioLogout_run w').1 = Ok 1.
Proof.
  intros Hok.
  destruct (login_run_Ok0_reads env args w Hok)
    as (response & token & _ & _ & Hne & Htoken & Hurl).
  assert (Htruthy : truthy (readToken (CmdStudioLogin_run env args w).2)
                    = true).
  { apply truthy_Some_nonempty. eauto. }
  destruct (logout_run_truthy_reads _ Htruthy) as (w' & Hrun & Hgone & Hkept).
  exists w'.
  assert (Hfalsy : truthy (readToken w') = false) by by rewrite Hgone.
  split_and!; try done.
  - by rewrite Hkept.
  - by rewrite token_run_falsy.
  - by rewrite logout_run_falsy.
Qed.

Lemma login_then_logout_witness :
  ∃ w',
    CmdStudioLogout_run
      (CmdStudioLogin_run
         (sample_env (Ok sample_response) (Ok (Some "abc123")) true)
         no_args empty_world).2 = (Ok 0, w')
    ∧ readToken w' = None
    ∧ readUrl w' = Some "https://env.example".
Proof.
  destruct (login_then_logout
              (sample_env (Ok sample_response) (Ok (Some "abc123")) true)
              no_args empty_world eq_refl)
    as (w' & Hrun & Hgone & Hurl & _).
  exists w'. split_and!; [exact Hrun|exact Hgone|exact Hurl].
Defined.

(** X3. On every world, a Logout run that follows a Logout run returns
    exit code 1, and so does a Token run that follows a Logout run: after
    Logout, whatever its outcome, nobody is logged in. *)
Theorem logout_then_not_logged_in (w : World) :
  (CmdStudioLogout_run (CmdStudioLogout_run w).2).1 = Ok 1
  ∧ (CmdStudioToken_run (CmdStudioLogout_run w).2).1 = Ok 1.
Proof.
  assert (Hfalsy : truthy (readToken (CmdStudioLogout_run w).2) = false).
  { destruct (truthy (readToken w)) eqn:Hguard.
    - destruct (logout_run_truthy_reads w Hguard) as (w' & -> & Hgone & _).
      cbn. by rewrite Hgone.
    - destruct (logout_run_falsy_reads w Hguard) as (w' & -> & Hsame & _).
      cbn. by rewrite Hsame.
  }
  split.
  - by rewrite logout_run_falsy.
  - by rewrite token_run_falsy.
Qed.


(** ** Saving, in full *)

(** The section [studio] as the store holds it for a level. *)
Lemma save_config_run (hostname token : string) (w : World) :
  save_config hostname token w
  = (Ok (),
     mkWorld
       (<["global" :=
            <["studio" :=
                <["url" := hostname]>
                  (<["token" := token]>
                     (default ∅ (default ∅ (store w !! "global")
                                 !! "studio")))]>
              (load_one (store w) "global")]> (store w))
       (trace w)).
Proof.
  set (conf := load_one (store w) "global").
  set (sec := default ∅ (default ∅ (store w !! "global") !! "studio")).
  assert (Hsec : conf !! "studio" = Some sec) by apply load_one_studio.
  unfold save_config, config_edit, bind, lift, ret. fold conf.
  unfold setitem2 at 1. rewrite Hsec.
  unfold setitem2. rewrite lookup_insert_eq.
  by rewrite insert_insert_eq.
Qed.

Lemma credential_overwrite (sec : gmap string string) (h1 t1 h2 t2 : string) :
  <["url" := h2]> (<["token" := t2]>
                     (<["url" := h1]> (<["token" := t1]> sec)))
  = <["url" := h2]> (<["token" := t2]> sec).
Proof.
  apply map_eq. intros k.
  destruct (decide (k = "url")) as [->|Hurl];
    [|destruct (decide (k = "token")) as [->|Htoken]];
    by simplify_map_eq.
Qed.

(** X6. [save_config] touches nothing but [studio.token] and [studio.url]
    of the "global" scope: every other field of the section, every other
    section, every other scope and the output are as before. *)
Theorem save_config_frame (hostname token : string) (w : World) :
  (∀ k, k ≠ "token" → k ≠ "url" →
     get_in (load_one (store (save_config hostname token w).2) "global")
       ("studio", k)
     = get_in (load_one (store w) "global") ("studio", k))
  ∧ (∀ k, k ≠ "studio" →
       load_one (store (save_config hostname token w).2) "global" !! k
       = load_one (store w) "global" !! k)
  ∧ (∀ level, level ≠ "global" →
       store (save_config hostname token w).2 !! level = store w !! level)
  ∧ trace (save_config hostname token w).2 = trace w.
Proof.
  rewrite save_config_run. cbn [snd store trace].
  set (sec := default ∅ (default ∅ (store w !! "global") !! "studio")).
  set (conf := load_one (store w) "global").
  assert (Hsec : conf !! "studio" = Some sec) by apply load_one_studio.
  assert (Hload : ∀ sec',
            load_one (<["global" := <["studio" := sec']> conf]> (store w))
              "global"
            = <["studio" := sec']> conf).
  { intros sec'. apply load_one_commit_id. rewrite lookup_insert_eq. eauto. }
  split_and!.
  - intros k Htoken Hurl. rewrite Hload. unfold get_in. cbn.
    rewrite lookup_insert_eq, Hsec. by rewrite !lookup_insert_ne.
  - intros k Hk. rewrite Hload. by rewrite lookup_insert_ne.
  - intros level Hlevel. by rewrite lookup_insert_ne.
  - done.
Qed.

Lemma save_config_frame_witness :
  get_in
    (load_one
       (store
          (save_config "https://studio.example" "abc123"
             (mkWorld
                {[ "global" :=
                     {[ "studio" := {[ "offline" := "true" ]};
                        "core" := {[ "remote" := "origin" ]} ]} ]} [])).2)
       "global")
    ("studio", "offline")
  = Some "true".
Proof.
  rewrite (proj1 (save_config_frame "https://studio.example" "abc123" _)
             "offline"); [reflexivity|discriminate|discriminate].
Defined.

(** X7. The last save wins: saving a credential over another leaves the
    store exactly as saving the later one alone; in particular saving the
    same credential twice is the same as saving it once. *)
Theorem save_config_overwrites (h1 t1 h2 t2 : string) (w : World) :
  store (save_config h2 t2 (save_config h1 t1 w).2).2
  = store (save_config h2 t2 w).2
  ∧ store (save_config h1 t1 (save_config h1 t1 w).2).2
    = store (save_config h1 t1 w).2.
Proof.
  assert (Hgen : ∀ h t h' t',
            store (save_config h' t' (save_config h t w).2).2
            = store (save_config h' t' w).2).
  { intros h t h' t'. rewrite (save_config_run h t w). cbn [snd].
    rewrite !save_config_run. cbn [snd store].
    set (sec := default ∅ (default ∅ (store w !! "global") !! "studio")).
    set (conf := load_one (store w) "global").
    rewrite lookup_insert_eq. cbn [default from_option id].
    rewrite lookup_insert_eq. cbn [default from_option id].
    rewrite load_one_commit_id by (rewrite lookup_insert_eq; eauto).
    by rewrite !insert_insert_eq, credential_overwrite. }
  split; apply Hgen.
Qed.

(** ** Calls made by a Login run *)

Lemma count_events_cons (p : event → bool) (e : event) (evs : list event) :
  count_events p (e :: evs)
  = ((if p e then 1 else 0) + count_events p evs)%nat.
Proof. unfold count_events. cbn. by destruct (p e). Qed.

Lemma count_events_app (p : event → bool) (evs1 evs2 : list event) :
  count_events p (evs1 ++ evs2)
  = (count_events p evs1 + count_events p evs2)%nat.
Proof. unfold count_events. by rewrite List.filter_app, length_app. Qed.

Lemma instructions_counts env args response :
  count_events is_start_call (instructions env args response) = 0%nat
  ∧ count_events is_check_call (instructions env args response) = 0%nat
  ∧ count_events is_browser_launch (instructions env args response)
    = (if use_device_code args then 0 else 1)%nat.
Proof.
  unfold instructions.
  destruct (use_device_code args); [done|].
  by destruct (webbrowser_open env (browser_url response)).
Qed.

(** X8. A Login run calls each collaborator at most once and never
    again: [start_device_login] exactly once; the completion call once when
    the start succeeded and not at all when it raised; the browser once
    when the start succeeded and [--use-device-code] is off, and not at all
    otherwise. *)
Theorem login_calls_once (env : Env) (args : Args) (w : World) :
  ∃ evs,
    trace (CmdStudioLogin_run env args w).2 = trace w ++ evs
    ∧ count_events is_start_call evs = 1%nat
    ∧ count_events is_check_call evs
      = match start_device_login env "dvc" (resolve_hostname env args)
                (resolve_name env args) (forwarded_scopes args) with
        | Ok _ => 1%nat
        | Raise _ => 0%nat
        end
    ∧ count_events is_browser_launch evs
      = match start_device_login env "dvc" (resolve_hostname env args)
                (resolve_name env args) (forwarded_scopes args) with
        | Ok _ => if use_device_code args then 0%nat else 1%nat
        | Raise _ => 0%nat
        end.
Proof.
  destruct (start_device_login env "dvc" (resolve_hostname env args)
              (resolve_name env args) (forwarded_scopes args))
    as [response|e] eqn:Hstart.
  - destruct (instructions_counts env args response) as (Hs & Hc & Hb).
    assert (Hcount : ∀ tail,
              count_events is_start_call tail = 0%nat →
              count_events is_check_call tail = 1%nat →
              count_events is_browser_launch tail = 0%nat →
              let evs := start_call args (resolve_name env args)
                           (resolve_hostname env args)
                         :: instructions env args response ++ tail in
              count_events is_start_call evs = 1%nat
              ∧ count_events is_check_call evs = 1%nat
              ∧ count_events is_browser_launch evs
                = (if use_device_code args then 0 else 1)%nat).
    { intros tail Hts Htc Htb. cbn zeta.
      rewrite !count_events_cons, !count_events_app.
      rewrite Hs, Hc, Hb, Hts, Htc, Htb. cbn.
      split_and!; [done|done|]. by destruct (use_device_code args). }
    destruct (check_token_authorization env (token_uri response)
                (device_code response)) as [tok|e] eqn:Hcheck.
    + destruct (truthy tok) eqn:Htok.
      * apply truthy_Some_nonempty in Htok as (t & -> & Hne).
        destruct (login_run_success _ _ w _ _ Hstart Hcheck Hne)
          as (conf' & -> & _).
        eexists. split; [done|]. by apply Hcount.
      * rewrite (login_run_expired _ _ w _ _ Hstart Hcheck Htok).
        eexists. split; [done|]. by apply Hcount.
    + rewrite (login_run_check_raises _ _ w _ _ Hstart Hcheck).
      eexists. split; [done|]. by apply Hcount.
  - destruct e as [k|msg|msg].
    + rewrite (login_run_start_raises _ _ w _ Hstart) by done.
      eexists. split; [done|]. done.
    + rewrite (login_run_ValueError _ _ w _ Hstart).
      eexists. split; [done|]. done.
    + rewrite (login_run_start_raises _ _ w _ Hstart) by done.
      eexists. split; [done|]. done.
Qed.

(** X9. A Login run never consults the stored credential: started on any
    two worlds, with the same collaborators and arguments, it returns the
    same result and adds the same events to the trace. *)
Theorem login_ignores_store (env : Env) (args : Args) (w1 w2 : World) :
  (CmdStudioLogin_run env args w1).1 = (CmdStudioLogin_run env args w2).1
  ∧ ∃ evs,
      trace (CmdStudioLogin_run env args w1).2 = trace w1 ++ evs
      ∧ trace (CmdStudioLogin_run env args w2).2 = trace w2 ++ evs.
Proof.
  destruct (start_device_login env "dvc" (resolve_hostname env args)
              (resolve_name env args) (forwarded_scopes args))
    as [response|e] eqn:Hstart.
  - destruct (check_token_authorization env (token_uri response)
                (device_code response)) as [tok|e] eqn:Hcheck.
    + destruct (truthy tok) eqn:Htok.
      * apply truthy_Some_nonempty in Htok as (t & -> & Hne).
        destruct (login_run_success _ _ w1 _ _ Hstart Hcheck Hne)
          as (conf1 & -> & _).
        destruct (login_run_success _ _ w2 _ _ Hstart Hcheck Hne)
          as (conf2 & -> & _).
        split; [done|]. by eexists.
      * rewrite !(login_run_expired _ _ _ _ _ Hstart Hcheck Htok).
        split; [done|]. by eexists.
    + rewrite !(login_run_check_raises _ _ _ _ _ Hstart Hcheck).
      split; [done|]. by eexists.
  - destruct e as [k|msg|msg].
    + rewrite !(login_run_start_raises _ _ _ _ Hstart) by done.
      split; [done|]. by eexists.
    + rewrite !(login_run_ValueError _ _ _ _ Hstart).
      split; [done|]. by eexists.
    + rewrite !(login_run_start_raises _ _ _ _ Hstart) by done.
      split; [done|]. by eexists.
Qed.

(** ** Splitting, the other way round *)

Section split_more.
Variable sep : ascii.



(** A string without the separator is its own single piece. *)
Lemma str_split_single (s : string) :
  str_contains sep s = false → str_split sep s = [s].
Proof.
  induction s as [|c rest IH]; [done|]. cbn.
  destruct (Ascii.eqb c sep); [done|]. cbn. intros Hrest.
  by rewrite IH.
Qed.

(** Splitting stops a separator-free piece at the separator after it. *)
Lemma str_split_piece (p rest : string) :
  str_contains sep p = false →
  str_split sep (p +:+ String sep rest) = p :: str_split sep rest.
Proof.
  induction p as [|c p IH]; intros Hp.
  - change (str_split sep (String sep rest) = "" :: str_split sep rest).
    cbn [str_split]. by rewrite Ascii.eqb_refl.
  - change (str_split sep (String c (p +:+ String sep rest))
            = String c p :: str_split sep rest).
    cbn [str_contains] in Hp. cbn [str_split].
    destruct (Ascii.eqb c sep); [done|]. by rewrite IH.
Qed.

(** Splitting what was joined gives the pieces back. *)
Lemma str_split_join (pieces : list string) :
  pieces ≠ [] →
  Forall (λ p, str_contains sep p = false) pieces →
  str_split sep (str_join sep pieces) = pieces.
Proof.
  induction pieces as [|p ps IH]; [done|]. intros _ Hall.
  inversion Hall as [|? ? Hp Hps]; subst.
  destruct ps as [|q qs].
  - by apply str_split_single.
  - change (str_join sep (p :: q :: qs))
      with (p +:+ String sep (str_join sep (q :: qs))).
    rewrite str_split_piece by done. by rewrite IH.
Qed.
End split_more.



(** X11. Any non-empty list of comma-free scope names, written with commas
    between them as the [--scopes] string, reaches [start_device_login] as
    that very list. *)
Theorem login_forwards_joined_scopes (env : Env) (args : Args) (w : World)
    (names : list string) :
  names ≠ [] →
  Forall (λ n, str_contains comma n = false) names →
  str_join comma names ≠ "" →
  scopes args = Some (str_join comma names) →
  ∃ evs,
    trace (CmdStudioLogin_run env args w).2
    = trace w
      ++ StartDeviceLogin "dvc" (resolve_hostname env args)
           (resolve_name env args) names
         :: evs.
Proof.
  intros Hnames Hfree Hne Hs.
  destruct (login_run_first_call env args w) as (evs & Hrun).
  exists evs. rewrite Hrun. unfold start_call, forwarded_scopes.
  rewrite Hs. unfold or_else, py_or, truthy. rewrite decide_False by done.
  by rewrite str_split_join.
Qed.

Lemma login_forwards_joined_scopes_witness :
  ∃ evs,
    trace (CmdStudioLogin_run
             (sample_env (Ok sample_response) (Ok (Some "abc123")) true)
             (mkArgs None None (Some "live,dql") false) empty_world).2
    = StartDeviceLogin "dvc" "https://env.example" "wry-cubs"
        ["live"; "dql"] :: evs.
Proof.
  assert (Hnames : ["live"; "dql"] ≠ @nil string) by discriminate.
  assert (Hfree : Forall (λ n, str_contains comma n = false)
                    ["live"; "dql"]).
  { repeat constructor. }
  assert (Hne : str_join comma ["live"; "dql"] ≠ "") by discriminate.
  exact (login_forwards_joined_scopes
           (sample_env (Ok sample_response) (Ok (Some "abc123")) true)
           (mkArgs None None (Some "live,dql") false) empty_world
           ["live"; "dql"] Hnames Hfree Hne eq_refl).
Defined.
